(** * drjacoby: the configuration loader [System::load] and the tempering
      ladder it configures.

    [src/System.cpp] holds one function, [System::load], which copies the
    entries of a host (R) argument list into the members of a [System]
    object.  The development embeds

    - the host values the loader receives ([SEXP], named lists, lookup by
      name as [Rcpp::List::operator[]] performs it);
    - the loader itself, statement by statement, in a small state-and-error
      monad over the [System] object;
    - the conversion helpers of [misc_v4.h] ([rcpp_to_int] and friends),
      which are not part of the sources at hand and are therefore taken as
      parameters;
    - the tempering ladder and the swap rule, which are described by the
      specification only and are modelled from its words over the reals. *)

From Stdlib Require Import ZArith List String Bool Lia.
From Stdlib Require Import Floats.
From Stdlib Require Import Reals Lra.
From Stdlib Require Import Permutation.
Import ListNotations.

Local Open Scope string_scope.
Local Open Scope list_scope.

#[local] Set Warnings "-register-all".

(* ================================================================= *)
(** ** Host values *)

(** An R value as the loader can meet it.  Atomic vectors carry their
    elements ([NA] is not distinguished), a generic vector ([VECSXP], an R
    [list]) carries its elements with their names, the empty string
    standing for an element without a name.  [EXTPTRSXP] stands for the
    opaque objects a bundle may carry (external pointers). *)
Inductive SEXP : Type :=
| NILSXP
| LGLSXP (v : list bool)
| INTSXP (v : list Z)
| REALSXP (v : list float)
| STRSXP (v : list string)
| VECSXP (v : list (string * SEXP))
| EXTPTRSXP (tag : N).

(** The payload of an [Rcpp::List]. *)
Definition RList : Type := list (string * SEXP).

(** The exceptions that can leave [load]: a name that is not in a list, and
    a value that cannot be converted to the requested type. *)
Inductive exception : Type :=
| index_out_of_bounds (name : string)
| not_compatible (what : string).

Inductive result (A : Type) : Type :=
| Ok (a : A)
| Throw (e : exception).
Arguments Ok {A} a.
Arguments Throw {A} e.

Definition rbind {A B} (r : result A) (k : A -> result B) : result B :=
  match r with
  | Ok a => k a
  | Throw e => Throw e
  end.

(** [call f r]: the call [f(e)] where evaluating the argument [e] gave [r]. *)
Definition call {A B} (f : A -> result B) (r : result A) : result B :=
  rbind r f.

(** [l $ name]: what reading [l["name"]] yields.  Rcpp walks the names in
    order and returns the first element whose name is [name]; it throws
    [index_out_of_bounds] when there is none. *)
Fixpoint get_by_name (name : string) (l : RList) : result SEXP :=
  match l with
  | [] => Throw (index_out_of_bounds name)
  | (n, v) :: tl => if String.eqb name n then Ok v else get_by_name name tl
  end.

Notation "l $ name" := (get_by_name name l)
  (at level 1, left associativity, format "l $ name").

Definition has_name (name : string) (l : RList) : bool :=
  existsb (String.eqb name) (map fst l).

(** The conversion helpers declared in [misc_v4.h].  Their definitions are
    not among the sources, so the loader is verified for every
    implementation of them; each may throw. *)
Record Misc : Type := mkMisc {
  rcpp_to_bool : SEXP -> result bool;
  rcpp_to_int : SEXP -> result Z;
  rcpp_to_double : SEXP -> result float;
  rcpp_to_vector_bool : SEXP -> result (list bool);
  rcpp_to_vector_int : SEXP -> result (list Z);
  rcpp_to_vector_double : SEXP -> result (list float)
}.

(** The value of a member of [System], tagged with its C++ type. *)
Inductive member_value : Type :=
| Bool (b : bool)
| Int (n : Z)
| Double (r : float)
| Bools (l : list bool)
| Ints (l : list Z)
| Doubles (l : list float).

(* ================================================================= *)
(** ** The loader *)

Section Load.

(** The members of [System] that [load] does not name ([System.h] is not
    among the sources). *)
Variable Other : Type.

(** R's [as.list], which Rcpp evaluates in the host when an [Rcpp::List]
    is initialised from a value that is not a list. *)
Variable as_list : SEXP -> result RList.

Variable misc : Misc.

Set Implicit Arguments.

(** The [System] object.  C++ [int]s are kept as integers in [Z] and
    [double]s as binary64 floats.  [d] receives the size of [theta_init];
    the model stores the size as it is, the declared type of the member
    being in [System.h]. *)
Record System : Type := mkSystem {
  x : list float;
  theta_init : list float;
  theta_min : list float;
  theta_max : list float;
  trans_type : list Z;
  d : Z;
  burnin : list Z;
  samples : Z;
  rungs : Z;
  burnin_phases : Z;
  bw_update : list bool;
  cov_update : list bool;
  coupling_on : list bool;
  GTI_pow : float;
  chain : Z;
  pb_markdown : bool;
  silent : bool;
  other : Other
}.

Definition set_x (v : list float) (s : System) : System :=
  mkSystem v (theta_init s) (theta_min s) (theta_max s) (trans_type s) (d
    s) (burnin s) (samples s) (rungs s) (burnin_phases s) (bw_update s)
    (cov_update s) (coupling_on s) (GTI_pow s) (chain s) (pb_markdown s)
    (silent s) (other s).

Definition set_theta_init (v : list float) (s : System) : System :=
  mkSystem (x s) v (theta_min s) (theta_max s) (trans_type s) (d s)
    (burnin s) (samples s) (rungs s) (burnin_phases s) (bw_update s)
    (cov_update s) (coupling_on s) (GTI_pow s) (chain s) (pb_markdown s)
    (silent s) (other s).

Definition set_theta_min (v : list float) (s : System) : System :=
  mkSystem (x s) (theta_init s) v (theta_max s) (trans_type s) (d s)
    (burnin s) (samples s) (rungs s) (burnin_phases s) (bw_update s)
    (cov_update s) (coupling_on s) (GTI_pow s) (chain s) (pb_markdown s)
    (silent s) (other s).

Definition set_theta_max (v : list float) (s : System) : System :=
  mkSystem (x s) (theta_init s) (theta_min s) v (trans_type s) (d s)
    (burnin s) (samples s) (rungs s) (burnin_phases s) (bw_update s)
    (cov_update s) (coupling_on s) (GTI_pow s) (chain s) (pb_markdown s)
    (silent s) (other s).

Definition set_trans_type (v : list Z) (s : System) : System :=
  mkSystem (x s) (theta_init s) (theta_min s) (theta_max s) v (d s)
    (burnin s) (samples s) (rungs s) (burnin_phases s) (bw_update s)
    (cov_update s) (coupling_on s) (GTI_pow s) (chain s) (pb_markdown s)
    (silent s) (other s).

Definition set_d (v : Z) (s : System) : System :=
  mkSystem (x s) (theta_init s) (theta_min s) (theta_max s) (trans_type s)
    v (burnin s) (samples s) (rungs s) (burnin_phases s) (bw_update s)
    (cov_update s) (coupling_on s) (GTI_pow s) (chain s) (pb_markdown s)
    (silent s) (other s).

Definition set_burnin (v : list Z) (s : System) : System :=
  mkSystem (x s) (theta_init s) (theta_min s) (theta_max s) (trans_type s)
    (d s) v (samples s) (rungs s) (burnin_phases s) (bw_update s)
    (cov_update s) (coupling_on s) (GTI_pow s) (chain s) (pb_markdown s)
    (silent s) (other s).

Definition set_samples (v : Z) (s : System) : System :=
  mkSystem (x s) (theta_init s) (theta_min s) (theta_max s) (trans_type s)
    (d s) (burnin s) v (rungs s) (burnin_phases s) (bw_update s)
    (cov_update s) (coupling_on s) (GTI_pow s) (chain s) (pb_markdown s)
    (silent s) (other s).

Definition set_rungs (v : Z) (s : System) : System :=
  mkSystem (x s) (theta_init s) (theta_min s) (theta_max s) (trans_type s)
    (d s) (burnin s) (samples s) v (burnin_phases s) (bw_update s)
    (cov_update s) (coupling_on s) (GTI_pow s) (chain s) (pb_markdown s)
    (silent s) (other s).

Definition set_burnin_phases (v : Z) (s : System) : System :=
  mkSystem (x s) (theta_init s) (theta_min s) (theta_max s) (trans_type s)
    (d s) (burnin s) (samples s) (rungs s) v (bw_update s) (cov_update s)
    (coupling_on s) (GTI_pow s) (chain s) (pb_markdown s) (silent s)
    (other s).

Definition set_bw_update (v : list bool) (s : System) : System :=
  mkSystem (x s) (theta_init s) (theta_min s) (theta_max s) (trans_type s)
    (d s) (burnin s) (samples s) (rungs s) (burnin_phases s) v (cov_update
    s) (coupling_on s) (GTI_pow s) (chain s) (pb_markdown s) (silent s)
    (other s).

Definition set_cov_update (v : list bool) (s : System) : System :=
  mkSystem (x s) (theta_init s) (theta_min s) (theta_max s) (trans_type s)
    (d s) (burnin s) (samples s) (rungs s) (burnin_phases s) (bw_update s)
    v (coupling_on s) (GTI_pow s) (chain s) (pb_markdown s) (silent s)
    (other s).

Definition set_coupling_on (v : list bool) (s : System) : System :=
  mkSystem (x s) (theta_init s) (theta_min s) (theta_max s) (trans_type s)
    (d s) (burnin s) (samples s) (rungs s) (burnin_phases s) (bw_update s)
    (cov_update s) v (GTI_pow s) (chain s) (pb_markdown s) (silent s)
    (other s).

Definition set_GTI_pow (v : float) (s : System) : System :=
  mkSystem (x s) (theta_init s) (theta_min s) (theta_max s) (trans_type s)
    (d s) (burnin s) (samples s) (rungs s) (burnin_phases s) (bw_update s)
    (cov_update s) (coupling_on s) v (chain s) (pb_markdown s) (silent s)
    (other s).

Definition set_chain (v : Z) (s : System) : System :=
  mkSystem (x s) (theta_init s) (theta_min s) (theta_max s) (trans_type s)
    (d s) (burnin s) (samples s) (rungs s) (burnin_phases s) (bw_update s)
    (cov_update s) (coupling_on s) (GTI_pow s) v (pb_markdown s) (silent
    s) (other s).

Definition set_pb_markdown (v : bool) (s : System) : System :=
  mkSystem (x s) (theta_init s) (theta_min s) (theta_max s) (trans_type s)
    (d s) (burnin s) (samples s) (rungs s) (burnin_phases s) (bw_update s)
    (cov_update s) (coupling_on s) (GTI_pow s) (chain s) v (silent s)
    (other s).

Definition set_silent (v : bool) (s : System) : System :=
  mkSystem (x s) (theta_init s) (theta_min s) (theta_max s) (trans_type s)
    (d s) (burnin s) (samples s) (rungs s) (burnin_phases s) (bw_update s)
    (cov_update s) (coupling_on s) (GTI_pow s) (chain s) (pb_markdown s) v
    (other s).

(** Computations over the [System] object that may throw.  The object is
    returned in both cases: members assigned before a throw stay
    assigned. *)
Definition M (A : Type) : Type := System -> System * result A.

Definition ret {A} (a : A) : M A := fun s => (s, Ok a).

Definition bind {A B} (m : M A) (k : A -> M B) : M B :=
  fun s =>
    match m s with
    | (s', Ok a) => k a s'
    | (s', Throw e) => (s', Throw e)
    end.

(** Evaluation of an expression that does not touch the object. *)
Definition eval {A} (r : result A) : M A := fun s => (s, r).

(** [member = e]: the right-hand side is evaluated first. *)
Definition store {A} (set : A -> System -> System) (r : result A) : M unit :=
  fun s =>
    match r with
    | Ok v => (set v s, Ok tt)
    | Throw e => (s, Throw e)
    end.

Definition this : M System := fun s => (s, Ok s).

Notation "v <- m ;; k" := (bind m (fun v => k))
  (at level 61, m at next level, right associativity).
Notation "m ;; k" := (bind m (fun _ => k))
  (at level 61, right associativity).

(** Initialisation of an [Rcpp::List] from a proxy: a list is taken as it
    is, any other value goes through [as.list]. *)
Definition r_cast_VECSXP (v : SEXP) : result RList :=
  match v with
  | VECSXP l => Ok l
  | _ => as_list v
  end.

Definition List_from (r : result SEXP) : result RList := rbind r r_cast_VECSXP.

Definition load (args : RList) : M unit :=
  (* split argument lists *)
  args_params <- eval (List_from args$"args_params") ;;
  args_functions <- eval (List_from args$"args_functions") ;;
  args_progress <- eval (List_from args$"args_progress") ;;
  args_progress_burnin <- eval (List_from args_progress$"pb_burnin") ;;
  (* data *)
  store set_x (call (rcpp_to_vector_double misc) args_params$"x") ;;
  (* model parameters *)
  store set_theta_init
    (call (rcpp_to_vector_double misc) args_params$"theta_init") ;;
  store set_theta_min
    (call (rcpp_to_vector_double misc) args_params$"theta_min") ;;
  store set_theta_max
    (call (rcpp_to_vector_double misc) args_params$"theta_max") ;;
  store set_trans_type
    (call (rcpp_to_vector_int misc) args_params$"trans_type") ;;
  (* d = theta_init.size(): the size of the member just assigned *)
  s <- this ;;
  store set_d (Ok (Z.of_nat (List.length (theta_init s)))) ;;
  (* MCMC parameters *)
  store set_burnin (call (rcpp_to_vector_int misc) args_params$"burnin") ;;
  store set_samples (call (rcpp_to_int misc) args_params$"samples") ;;
  store set_rungs (call (rcpp_to_int misc) args_params$"rungs") ;;
  store set_burnin_phases
    (call (rcpp_to_int misc) args_params$"burnin_phases") ;;
  store set_bw_update
    (call (rcpp_to_vector_bool misc) args_params$"bw_update") ;;
  store set_cov_update
    (call (rcpp_to_vector_bool misc) args_params$"cov_update") ;;
  store set_coupling_on
    (call (rcpp_to_vector_bool misc) args_params$"coupling_on") ;;
  store set_GTI_pow (call (rcpp_to_double misc) args_params$"GTI_pow") ;;
  store set_chain (call (rcpp_to_int misc) args_params$"chain") ;;
  (* misc parameters *)
  store set_pb_markdown
    (call (rcpp_to_bool misc) args_params$"pb_markdown") ;;
  store set_silent (call (rcpp_to_bool misc) args_params$"silent").

(** The parameter list and the three collaborator lists [load] splits off
    the bundle in its first four statements. *)
Definition args_params_of (args : RList) : result RList :=
  List_from args$"args_params".

Definition collaborators_of (args : RList) : result (RList * RList * RList) :=
  rbind (List_from args$"args_functions") (fun args_functions =>
  rbind (List_from args$"args_progress") (fun args_progress =>
  rbind (List_from args_progress$"pb_burnin") (fun args_progress_burnin =>
  Ok (args_functions, args_progress, args_progress_burnin)))).

(** [converts params c]: every configuration entry of [params] is present
    and its helper converts it to the member of [c] of the same name. *)
Definition converts (params : RList) (c : System) : Prop :=
  call (rcpp_to_vector_double misc) params$"x" = Ok (x c) /\
  call (rcpp_to_vector_double misc) params$"theta_init" = Ok (theta_init c) /\
  call (rcpp_to_vector_double misc) params$"theta_min" = Ok (theta_min c) /\
  call (rcpp_to_vector_double misc) params$"theta_max" = Ok (theta_max c) /\
  call (rcpp_to_vector_int misc) params$"trans_type" = Ok (trans_type c) /\
  call (rcpp_to_vector_int misc) params$"burnin" = Ok (burnin c) /\
  call (rcpp_to_int misc) params$"samples" = Ok (samples c) /\
  call (rcpp_to_int misc) params$"rungs" = Ok (rungs c) /\
  call (rcpp_to_int misc) params$"burnin_phases" = Ok (burnin_phases c) /\
  call (rcpp_to_vector_bool misc) params$"bw_update" = Ok (bw_update c) /\
  call (rcpp_to_vector_bool misc) params$"cov_update" = Ok (cov_update c) /\
  call (rcpp_to_vector_bool misc) params$"coupling_on" = Ok (coupling_on c) /\
  call (rcpp_to_double misc) params$"GTI_pow" = Ok (GTI_pow c) /\
  call (rcpp_to_int misc) params$"chain" = Ok (chain c) /\
  call (rcpp_to_bool misc) params$"pb_markdown" = Ok (pb_markdown c) /\
  call (rcpp_to_bool misc) params$"silent" = Ok (silent c).

(** The object [load] leaves behind when every entry converts to the
    members of [c]: the configuration of [c], the dimension recomputed, and
    the remaining members of the object [s] it was called on. *)
Definition loaded (c s : System) : System :=
  mkSystem (x c) (theta_init c) (theta_min c) (theta_max c) (trans_type c)
    (Z.of_nat (List.length (theta_init c))) (burnin c) (samples c) (rungs c)
    (burnin_phases c) (bw_update c) (cov_update c) (coupling_on c)
    (GTI_pow c) (chain c) (pb_markdown c) (silent c) (other s).

(** The configuration an object holds: its seventeen loaded members,
    without the members [load] does not name. *)
Definition configuration (s : System) : list float * list float * list float
    * list float * list Z * Z * list Z * Z * Z * Z * list bool * list bool
    * list bool * float * Z * bool * bool :=
  (x s, theta_init s, theta_min s, theta_max s, trans_type s, d s, burnin s,
   samples s, rungs s, burnin_phases s, bw_update s, cov_update s,
   coupling_on s, GTI_pow s, chain s, pb_markdown s, silent s).

(** The members [load] fills from the bundle, under the names of the
    entries it reads for them. *)
Definition members (s : System) : list (string * member_value) :=
  [("x", Doubles (x s));
   ("theta_init", Doubles (theta_init s));
   ("theta_min", Doubles (theta_min s));
   ("theta_max", Doubles (theta_max s));
   ("trans_type", Ints (trans_type s));
   ("burnin", Ints (burnin s));
   ("samples", Int (samples s));
   ("rungs", Int (rungs s));
   ("burnin_phases", Int (burnin_phases s));
   ("bw_update", Bools (bw_update s));
   ("cov_update", Bools (cov_update s));
   ("coupling_on", Bools (coupling_on s));
   ("GTI_pow", Double (GTI_pow s));
   ("chain", Int (chain s));
   ("pb_markdown", Bool (pb_markdown s));
   ("silent", Bool (silent s))].

Definition member (f : string) (s : System) : option member_value :=
  option_map snd (find (fun nv => String.eqb f (fst nv)) (members s)).

(** [m] leaves the part [P] of the object as it was, whether it returns
    or throws. *)
Definition keeps X A (P : System -> X) (m : M A) : Prop :=
  forall s, P (fst (m s)) = P s.

Unset Implicit Arguments.

End Load.

(** The names [load] reads from [args_params]. *)
Definition config_fields : list string :=
  ["x"; "theta_init"; "theta_min"; "theta_max"; "trans_type"; "burnin";
   "samples"; "rungs"; "burnin_phases"; "bw_update"; "cov_update";
   "coupling_on"; "GTI_pow"; "chain"; "pb_markdown"; "silent"].

(** What the statements of [load] that read an entry evaluate to, by
    entry name and in source order: the converted value, tagged with the
    type of the member it is assigned to, or the exception of the lookup
    or of the helper. *)
Definition rmap {A B} (f : A -> B) (r : result A) : result B :=
  rbind r (fun a => Ok (f a)).

Definition entries (misc : Misc) (params : RList)
  : list (string * result member_value) :=
  [("x", rmap Doubles (call (rcpp_to_vector_double misc) params$"x"));
   ("theta_init",
    rmap Doubles (call (rcpp_to_vector_double misc) params$"theta_init"));
   ("theta_min",
    rmap Doubles (call (rcpp_to_vector_double misc) params$"theta_min"));
   ("theta_max",
    rmap Doubles (call (rcpp_to_vector_double misc) params$"theta_max"));
   ("trans_type", rmap Ints (call (rcpp_to_vector_int misc) params$"trans_type"));
   ("burnin", rmap Ints (call (rcpp_to_vector_int misc) params$"burnin"));
   ("samples", rmap Int (call (rcpp_to_int misc) params$"samples"));
   ("rungs", rmap Int (call (rcpp_to_int misc) params$"rungs"));
   ("burnin_phases", rmap Int (call (rcpp_to_int misc) params$"burnin_phases"));
   ("bw_update", rmap Bools (call (rcpp_to_vector_bool misc) params$"bw_update"));
   ("cov_update", rmap Bools (call (rcpp_to_vector_bool misc) params$"cov_update"));
   ("coupling_on",
    rmap Bools (call (rcpp_to_vector_bool misc) params$"coupling_on"));
   ("GTI_pow", rmap Double (call (rcpp_to_double misc) params$"GTI_pow"));
   ("chain", rmap Int (call (rcpp_to_int misc) params$"chain"));
   ("pb_markdown", rmap Bool (call (rcpp_to_bool misc) params$"pb_markdown"));
   ("silent", rmap Bool (call (rcpp_to_bool misc) params$"silent"))].

(** [m] keeps the property [Q] of the object, whether it returns or
    throws. *)
Definition invariant {Other A} (Q : System Other -> Prop) (m : M Other A) : Prop :=
  forall s, Q s -> Q (fst (m s)).

(* ================================================================= *)
(** ** The loader in the program state *)

(** [load] once more, with everything it could touch made explicit: the
    object it is called on, the R list its argument [args] is a handle
    to, and the rest of the program state.  Code that is not among the
    sources (the helpers of [misc_v4.h], R's [as.list] behind the
    initialisation of an [Rcpp::List]) runs in this state and may change
    it. *)
Section InProgram.

Variable Other : Type.
Variable World : Type.

Set Implicit Arguments.

Record Program : Type := mkProgram {
  self : System Other;
  R_args : RList;
  world : World
}.

Definition P (A : Type) : Type := Program -> Program * result A.

(** The code [load] calls that is not among the sources. *)
Record Externals : Type := mkExternals {
  run_as_list : SEXP -> P RList;
  run_rcpp_to_bool : SEXP -> P bool;
  run_rcpp_to_int : SEXP -> P Z;
  run_rcpp_to_double : SEXP -> P float;
  run_rcpp_to_vector_bool : SEXP -> P (list bool);
  run_rcpp_to_vector_int : SEXP -> P (list Z);
  run_rcpp_to_vector_double : SEXP -> P (list float)
}.

Variable ext : Externals.

Definition pret {A} (a : A) : P A := fun p => (p, Ok a).

Definition pbind {A B} (m : P A) (k : A -> P B) : P B :=
  fun p =>
    match m p with
    | (p', Ok a) => k a p'
    | (p', Throw e) => (p', Throw e)
    end.

Notation "v <- m ;; k" := (pbind m (fun v => k))
  (at level 61, m at next level, right associativity).
Notation "m ;; k" := (pbind m (fun _ => k))
  (at level 61, right associativity).

(** A result computed from local values. *)
Definition local {A} (r : result A) : P A := fun p => (p, r).

(** [args["name"]]: a read of the R list behind the handle. *)
Definition read_args (name : string) : P SEXP :=
  fun p => (p, (R_args p)$name).

(** The object the function is called on. *)
Definition read_self : P (System Other) := fun p => (p, Ok (self p)).

(** [member = e]: the right-hand side runs first, then the member of the
    object is written. *)
Definition assign {A} (set : A -> System Other -> System Other) (m : P A)
  : P unit :=
  v <- m ;;
  fun p => (mkProgram (set v (self p)) (R_args p) (world p), Ok tt).

(** Initialisation of an [Rcpp::List]: a list is taken as it is, any
    other value goes through [as.list]. *)
Definition List_init (m : P SEXP) : P RList :=
  v <- m ;;
  match v with
  | VECSXP l => pret l
  | _ => run_as_list ext v
  end.

(** [f(l["name"])]: the lookup in a local list, then the call. *)
Definition convert {A} (f : SEXP -> P A) (l : RList) (name : string) : P A :=
  v <- local l$name ;; f v.

Definition System_load : P unit :=
  (* split argument lists *)
  args_params <- List_init (read_args "args_params") ;;
  args_functions <- List_init (read_args "args_functions") ;;
  args_progress <- List_init (read_args "args_progress") ;;
  args_progress_burnin <- List_init (local args_progress$"pb_burnin") ;;
  (* data *)
  assign (@set_x Other) (convert (run_rcpp_to_vector_double ext) args_params "x") ;;
  (* model parameters *)
  assign (@set_theta_init Other)
    (convert (run_rcpp_to_vector_double ext) args_params "theta_init") ;;
  assign (@set_theta_min Other)
    (convert (run_rcpp_to_vector_double ext) args_params "theta_min") ;;
  assign (@set_theta_max Other)
    (convert (run_rcpp_to_vector_double ext) args_params "theta_max") ;;
  assign (@set_trans_type Other)
    (convert (run_rcpp_to_vector_int ext) args_params "trans_type") ;;
  (* d = theta_init.size() *)
  s <- read_self ;;
  assign (@set_d Other) (pret (Z.of_nat (List.length (theta_init s)))) ;;
  (* MCMC parameters *)
  assign (@set_burnin Other)
    (convert (run_rcpp_to_vector_int ext) args_params "burnin") ;;
  assign (@set_samples Other) (convert (run_rcpp_to_int ext) args_params "samples") ;;
  assign (@set_rungs Other) (convert (run_rcpp_to_int ext) args_params "rungs") ;;
  assign (@set_burnin_phases Other)
    (convert (run_rcpp_to_int ext) args_params "burnin_phases") ;;
  assign (@set_bw_update Other)
    (convert (run_rcpp_to_vector_bool ext) args_params "bw_update") ;;
  assign (@set_cov_update Other)
    (convert (run_rcpp_to_vector_bool ext) args_params "cov_update") ;;
  assign (@set_coupling_on Other)
    (convert (run_rcpp_to_vector_bool ext) args_params "coupling_on") ;;
  assign (@set_GTI_pow Other)
    (convert (run_rcpp_to_double ext) args_params "GTI_pow") ;;
  assign (@set_chain Other) (convert (run_rcpp_to_int ext) args_params "chain") ;;
  (* misc parameters *)
  assign (@set_pb_markdown Other)
    (convert (run_rcpp_to_bool ext) args_params "pb_markdown") ;;
  assign (@set_silent Other) (convert (run_rcpp_to_bool ext) args_params "silent").




Unset Implicit Arguments.

End InProgram.

(** Helpers and coercion that compute their result from their argument
    alone, run in the program state: they leave it as it is. *)
Definition pure_call {Other World A} (f : SEXP -> result A)
  : SEXP -> P Other World A :=
  fun v p => (p, f v).

Definition pure_externals {Other World} (as_list : SEXP -> result RList)
    (misc : Misc) : Externals Other World :=
  mkExternals (pure_call as_list)
    (pure_call (rcpp_to_bool misc)) (pure_call (rcpp_to_int misc))
    (pure_call (rcpp_to_double misc)) (pure_call (rcpp_to_vector_bool misc))
    (pure_call (rcpp_to_vector_int misc)) (pure_call (rcpp_to_vector_double misc)).

(* ================================================================= *)
(** ** A host for the examples *)

(** [Rcpp::as<T>] on the values that already have the type asked for: a
    vector of the element type, of length one for a scalar.  (On other
    values Rcpp attempts a coercion; the examples below never reach it.) *)
Module RcppAs.

Definition as_bool (v : SEXP) : result bool :=
  match v with
  | LGLSXP [b] => Ok b
  | _ => Throw (not_compatible "bool")
  end.

Definition as_int (v : SEXP) : result Z :=
  match v with
  | INTSXP [n] => Ok n
  | _ => Throw (not_compatible "int")
  end.

Definition as_double (v : SEXP) : result float :=
  match v with
  | REALSXP [r] => Ok r
  | _ => Throw (not_compatible "double")
  end.

Definition as_vector_bool (v : SEXP) : result (list bool) :=
  match v with
  | LGLSXP l => Ok l
  | _ => Throw (not_compatible "vector<bool>")
  end.

Definition as_vector_int (v : SEXP) : result (list Z) :=
  match v with
  | INTSXP l => Ok l
  | _ => Throw (not_compatible "vector<int>")
  end.

Definition as_vector_double (v : SEXP) : result (list float) :=
  match v with
  | REALSXP l => Ok l
  | _ => Throw (not_compatible "vector<double>")
  end.

Definition misc : Misc :=
  mkMisc as_bool as_int as_double as_vector_bool as_vector_int as_vector_double.

(** [as.list]: an atomic vector is split into its elements, [NULL] gives
    the empty list, an external pointer cannot be coerced. *)
Definition as_list (v : SEXP) : result RList :=
  match v with
  | NILSXP => Ok []
  | LGLSXP l => Ok (map (fun b => ("", LGLSXP [b])) l)
  | INTSXP l => Ok (map (fun n => ("", INTSXP [n])) l)
  | REALSXP l => Ok (map (fun r => ("", REALSXP [r])) l)
  | STRSXP l => Ok (map (fun t => ("", STRSXP [t])) l)
  | VECSXP l => Ok l
  | EXTPTRSXP _ => Throw (not_compatible "as.list")
  end.

(** A freshly constructed object; it has no members besides the
    configuration. *)
Definition System0 : System unit :=
  mkSystem [] [] [] [] [] 0%Z [] 0%Z 0%Z 0%Z [] [] [] 0%float 0%Z false false tt.

(** Replacement and removal of the first entry called [name]. *)
Fixpoint set_entry (name : string) (v : SEXP) (l : RList) : RList :=
  match l with
  | [] => [(name, v)]
  | (n, w) :: tl =>
      if String.eqb name n then (n, v) :: tl else (n, w) :: set_entry name v tl
  end.

Fixpoint remove_entry (name : string) (l : RList) : RList :=
  match l with
  | [] => []
  | (n, w) :: tl =>
      if String.eqb name n then tl else (n, w) :: remove_entry name tl
  end.

(** A bundle around a parameter list, with the collaborator lists the
    package passes along. *)
Definition bundle (params : RList) : RList :=
  [("args_params", VECSXP params);
   ("args_functions", VECSXP [("loglike", EXTPTRSXP 1); ("logprior", EXTPTRSXP 2)]);
   ("args_progress", VECSXP [("pb_burnin", VECSXP [("len", INTSXP [1000%Z])])])].

(** One parameter, bounds [-10, 10], one rung, one burn-in phase. *)
Definition params_A : RList :=
  [("x", REALSXP [0.5%float; (-0.25)%float; 1.5%float]);
   ("theta_init", REALSXP [0%float]);
   ("theta_min", REALSXP [(-10)%float]);
   ("theta_max", REALSXP [10%float]);
   ("trans_type", INTSXP [0%Z]);
   ("burnin", INTSXP [1000%Z]);
   ("samples", INTSXP [5000%Z]);
   ("rungs", INTSXP [1%Z]);
   ("burnin_phases", INTSXP [1%Z]);
   ("bw_update", LGLSXP [true]);
   ("cov_update", LGLSXP [true]);
   ("coupling_on", LGLSXP [true]);
   ("GTI_pow", REALSXP [2%float]);
   ("chain", INTSXP [1%Z]);
   ("pb_markdown", LGLSXP [false]);
   ("silent", LGLSXP [true])].

(** The sequences disagree in length: two initial values, one lower
    bound, three upper bounds, no transformation, and two burn-in lengths
    for one announced phase. *)
Definition params_lengths : RList :=
  set_entry "theta_init" (REALSXP [0%float; 1%float])
    (set_entry "theta_max" (REALSXP [10%float; 10%float; 10%float])
       (set_entry "trans_type" (INTSXP [])
          (set_entry "burnin" (INTSXP [1000%Z; 500%Z]) params_A))).

(** No rung, a negative number of samples, a negative power, and an
    initial value above its upper bound. *)
Definition params_values : RList :=
  set_entry "rungs" (INTSXP [0%Z])
    (set_entry "samples" (INTSXP [(-1)%Z])
       (set_entry "GTI_pow" (REALSXP [(-1)%float])
          (set_entry "theta_init" (REALSXP [50%float]) params_A))).

(** The objects [load] is expected to leave for these parameter lists. *)
Definition System_A : System unit :=
  mkSystem [0.5%float; (-0.25)%float; 1.5%float] [0%float] [(-10)%float]
    [10%float] [0%Z] 1%Z [1000%Z] 5000%Z 1%Z 1%Z [true] [true] [true]
    2%float 1%Z false true tt.

Definition System_lengths : System unit :=
  mkSystem [0.5%float; (-0.25)%float; 1.5%float] [0%float; 1%float]
    [(-10)%float] [10%float; 10%float; 10%float] [] 2%Z [1000%Z; 500%Z]
    5000%Z 1%Z 1%Z [true] [true] [true] 2%float 1%Z false true tt.

Definition System_values : System unit :=
  mkSystem [0.5%float; (-0.25)%float; 1.5%float] [50%float] [(-10)%float]
    [10%float] [0%Z] 1%Z [1000%Z] (-1)%Z 0%Z 1%Z [true] [true] [true]
    (-1)%float 1%Z false true tt.

(** A bundle with the parameters of [params_A] and other collaborators. *)
Definition bundle_A' : RList :=
  [("args_progress", VECSXP [("pb_samples", NILSXP); ("pb_burnin", NILSXP)]);
   ("args_functions", REALSXP [1%float]);
   ("args_params", VECSXP params_A)].

End RcppAs.

(** [theta_init] within its bounds, component by component, in
    floating-point comparison; the specification lists its failure among
    the validation errors. *)
Fixpoint within_bounds (init lo hi : list float) : bool :=
  match init, lo, hi with
  | v :: init', l :: lo', h :: hi' =>
      PrimFloat.leb l v && PrimFloat.leb v h && within_bounds init' lo' hi'
  | _, _, _ => true
  end.

(* ================================================================= *)
(** ** The tempering ladder and the swap rule *)

Module RungLadder.

Local Open Scope R_scope.

(** Modelled from the spec: the power [x^p] of the ladder formula, for a
    base [x >= 0] and a real exponent [p > 0]; the implementation of the
    ladder is not among the sources.  A positive base is raised with the
    real power function, and [0^p] is [0]. *)
Definition power (x p : R) : R :=
  if Rlt_dec 0 x then Rpower x p else 0.

(** Modelled from the spec: the temperature power of rung [k] in a ladder
    of [rungs] chains, "β_k = (k / (rungs − 1))^GTI_pow", and "rungs == 1
    collapses to a single untempered chain (β = 1)".  The ladder
    construction is not among the sources. *)
Definition beta (rungs : nat) (GTI_pow : R) (k : nat) : R :=
  if Nat.eqb rungs 1 then 1
  else power (INR k / INR (rungs - 1)) GTI_pow.

(** Modelled from the spec: the powers of the [rungs] chains the ladder
    constructs, for [k = 0..rungs−1]. *)
Definition construct (rungs : nat) (GTI_pow : R) : list R :=
  map (beta rungs GTI_pow) (seq 0 rungs).

End RungLadder.

Module CouplingEngine.

Local Open Scope R_scope.

(** Modelled from the spec: what the swap rule reads of a chain, its
    temperature power, its cached log-likelihood, its [coupling_on] flag,
    and the parameter state a swap exchanges.  The chain type is not among
    the sources. *)
Record Chain : Type := mkChain {
  beta : R;
  loglike : R;
  coupling_on : bool;
  state : list R
}.

(** Modelled from the spec: the swap acceptance of the pair [(k, k+1)],
    "min(1, exp((β_{k+1} − β_k)·(loglike_k − loglike_{k+1})))".  The
    coupling engine is not among the sources. *)
Definition swap_acceptance (ck ck1 : Chain) : R :=
  Rmin 1 (exp ((beta ck1 - beta ck) * (loglike ck - loglike ck1))).

(** Modelled from the spec: the exchange on accept, "swap the two chains'
    ParameterState and cached log-likelihoods"; power and flag stay with
    the rung. *)
Definition swap (ck ck1 : Chain) : Chain * Chain :=
  (mkChain (beta ck) (loglike ck1) (coupling_on ck) (state ck1),
   mkChain (beta ck1) (loglike ck) (coupling_on ck1) (state ck)).

(** Modelled from the spec: one swap attempt on an adjacent pair, decided
    by a uniform draw [u] from [[0, 1)].  A pair is attempted only when
    both flags are on; the outcome gives the acceptance probability, the
    accepted flag and the chains after the attempt. *)
Definition attempt_swap (u : R) (ck ck1 : Chain)
  : option (R * bool * (Chain * Chain)) :=
  if coupling_on ck && coupling_on ck1 then
    let p := swap_acceptance ck ck1 in
    if Rlt_dec u p then Some (p, true, swap ck ck1)
    else Some (p, false, (ck, ck1))
  else None.

(** Two coupled rungs at the same power, with different log-likelihoods. *)
Definition rung_a : Chain := mkChain (1 / 4) (-3) true [0].
Definition rung_b : Chain := mkChain (1 / 4) (-5) true [2].

End CouplingEngine.

(* ================================================================= *)
(** ** Lookup by name *)

Lemma get_by_name_absent (name : string) (l : RList) :
  has_name name l = false -> l$name = Throw (index_out_of_bounds name).
Proof.
  unfold has_name.
  induction l as [|[n v] tl IH]; simpl; [reflexivity|].
  destruct (String.eqb name n); simpl; [discriminate | exact IH].
Qed.

Lemma get_by_name_present (name : string) (l : RList) (v : SEXP) :
  l$name = Ok v -> has_name name l = true.
Proof.
  destruct (has_name name l) eqn:E; [reflexivity|].
  rewrite (get_by_name_absent _ _ E). discriminate.
Qed.

Lemma rbind_Ok {A B} (r : result A) (k : A -> result B) (b : B) :
  rbind r k = Ok b -> exists a, r = Ok a /\ k a = Ok b.
Proof.
  destruct r as [a|e]; simpl; [|discriminate].
  intros H. now exists a.
Qed.

Lemma call_present {A} (f : SEXP -> result A) (name : string) (l : RList) (a : A) :
  call f l$name = Ok a -> has_name name l = true.
Proof.
  intros H. apply rbind_Ok in H. destruct H as (v & Hv & _).
  eapply get_by_name_present, Hv.
Qed.

(* ================================================================= *)
(** ** The loader: inversion and introduction *)

Section LoadTheory.

Variable Other : Type.
Variable as_list : SEXP -> result RList.
Variable misc : Misc.

Implicit Types (s c : System Other) (args params : RList).

Lemma bind_Ok {A B} (m : M Other A) (k : A -> M Other B) s s' (b : B) :
  bind m k s = (s', Ok b) ->
  exists s1 a, m s = (s1, Ok a) /\ k a s1 = (s', Ok b).
Proof.
  unfold bind. destruct (m s) as [s1 [a|e]]; [|discriminate].
  intros H. now exists s1, a.
Qed.

Lemma eval_Ok {A} (r : result A) s s' (a : A) :
  eval r s = (s', Ok a) -> s' = s /\ r = Ok a.
Proof. unfold eval. now intros [= -> ->]. Qed.

Lemma store_Ok {A} (set : A -> System Other -> System Other) (r : result A) s s' u :
  store set r s = (s', Ok u) -> exists v, r = Ok v /\ s' = set v s.
Proof.
  unfold store. destruct r as [v|e]; [|discriminate].
  intros [= <- _]. now exists v.
Qed.

Lemma this_Ok s s' s1 : this s = (s', Ok s1) -> s' = s /\ s1 = s.
Proof. unfold this. now intros [= -> ->]. Qed.

(** One statement of [load] that succeeded. *)
Ltac load_step H :=
  let s1 := fresh "s" in
  let v := fresh "v" in
  let H1 := fresh "E" in
  apply bind_Ok in H; destruct H as (s1 & v & H1 & H);
  first
    [ apply this_Ok in H1; destruct H1 as [-> ->]
    | apply eval_Ok in H1; destruct H1 as [-> H1]
    | apply store_Ok in H1; destruct H1 as (? & H1 & ->) ].

(** A successful [load] found every list and every entry, and the object
    it returns is [loaded] from the converted entries. *)
Lemma load_Ok_inv args s s' u :
  load as_list misc args s = (s', Ok u) ->
  exists params fpb,
    args_params_of as_list args = Ok params /\
    collaborators_of as_list args = Ok fpb /\
    converts misc params s' /\
    s' = loaded s' s.
Proof.
  unfold load. intros H.
  do 21 load_step H.
  apply store_Ok in H. destruct H as (? & H & ->).
  exists v, (v0, v1, v2). unfold args_params_of, collaborators_of, converts.
  rewrite E, E0, E1. simpl. rewrite E2. simpl.
  repeat split; assumption.
Qed.

Lemma load_Ok_intro args params fpb c s :
  args_params_of as_list args = Ok params ->
  collaborators_of as_list args = Ok fpb ->
  converts misc params c ->
  load as_list misc args s = (loaded c s, Ok tt).
Proof.
  unfold args_params_of, collaborators_of, converts.
  intros Hp Hc Hv.
  apply rbind_Ok in Hc. destruct Hc as (f & Hf & Hc).
  apply rbind_Ok in Hc. destruct Hc as (p & Hpr & Hc).
  apply rbind_Ok in Hc. destruct Hc as (b & Hb & _).
  decompose [and] Hv. clear Hv.
  unfold load, bind, eval, store, this.
  rewrite Hp, Hf, Hpr, Hb.
  repeat match goal with E : call _ _ = Ok _ |- _ => rewrite E; clear E end.
  reflexivity.
Qed.

(** A call of [load] that returns normally leaves no failed lookup behind:
    a missing list or entry makes it throw. *)
Lemma load_not_Ok_throws args s :
  (forall s' u, load as_list misc args s <> (s', Ok u)) ->
  exists s' e, load as_list misc args s = (s', Throw e).
Proof.
  intros H. destruct (load as_list misc args s) as [s' [u|e]] eqn:E.
  - now destruct (H s' u).
  - now exists s', e.
Qed.

(* ================================================================= *)
(** ** Frame: what [load] leaves as it was *)

Section Keeps.

Variable X : Type.
Variable P : System Other -> X.

Lemma keeps_eval {A} (r : result A) : keeps P (eval r).
Proof. intros s. reflexivity. Qed.

Lemma keeps_this : keeps P (@this Other).
Proof. intros s. reflexivity. Qed.

Lemma keeps_store {A} (set : A -> System Other -> System Other) (r : result A) :
  (forall v s, P (set v s) = P s) -> keeps P (store set r).
Proof.
  intros Hset s. unfold store. destruct r as [v|e]; simpl; [apply Hset | reflexivity].
Qed.

(** An assignment whose right-hand side throws assigns nothing. *)
Lemma keeps_store_Throw {A} (set : A -> System Other -> System Other)
    (r : result A) (e : exception) :
  r = Throw e -> keeps P (store set r).
Proof. intros -> s. reflexivity. Qed.

Lemma keeps_bind {A B} (m : M Other A) (k : A -> M Other B) :
  keeps P m -> (forall a, keeps P (k a)) -> keeps P (bind m k).
Proof.
  intros Hm Hk s. unfold bind. specialize (Hm s).
  destruct (m s) as [s1 [a|e]]; simpl in *.
  - now rewrite Hk.
  - exact Hm.
Qed.

Lemma keeps_bind_eval {A B} (r : result A) (k : A -> M Other B) :
  (forall a, r = Ok a -> keeps P (k a)) -> keeps P (bind (eval r) k).
Proof.
  intros Hk s. unfold bind, eval. destruct r as [a|e]; [|reflexivity].
  now apply Hk.
Qed.

End Keeps.

Lemma load_keeps_other args :
  keeps (@other Other) (load as_list misc args).
Proof.
  unfold load.
  repeat first
    [ apply keeps_bind; [|intro]
    | apply keeps_eval
    | apply keeps_this
    | apply keeps_store; reflexivity ].
Qed.

(** A member whose entry is missing keeps the value it had: the
    assignments before the failing one are to other members, and the
    failing one assigns nothing. *)
Lemma load_keeps_missing_member args (f : string) :
  In f config_fields ->
  (forall params,
     args_params_of as_list args = Ok params -> has_name f params = false) ->
  keeps (member (Other:=Other) f) (load as_list misc args).
Proof.
  intros Hf Hmiss. unfold load.
  apply keeps_bind_eval. intros params Hp.
  specialize (Hmiss params Hp). apply get_by_name_absent in Hmiss.
  unfold config_fields in Hf. simpl in Hf.
  repeat (destruct Hf as [<- | Hf];
    [ repeat first
        [ apply keeps_bind; [|intro]
        | apply keeps_eval
        | apply keeps_this
        | apply keeps_store; reflexivity
        | eapply keeps_store_Throw; rewrite Hmiss; reflexivity ]
    | ]).
  contradiction.
Qed.

(* ================================================================= *)
(** ** Properties of [load] *)

(** C3.  When [load] succeeds on a bundle, the bundle has an [args_params]
    list and every configuration member of the resulting object ([x],
    [theta_init], [theta_min], [theta_max], [trans_type], [burnin],
    [samples], [rungs], [burnin_phases], [bw_update], [cov_update],
    [coupling_on], [GTI_pow], [chain], [pb_markdown], [silent]) is the
    entry of that name in [args_params], converted by the helper of the
    member's type (this is [converts]); the dimension [d] is the length
    of [theta_init]. *)
Theorem load_stores_converted_entries args s s' :
  load as_list misc args s = (s', Ok tt) ->
  exists params,
    args_params_of as_list args = Ok params /\
    converts misc params s' /\
    d s' = Z.of_nat (List.length (theta_init s')).
Proof.
  intros H. apply load_Ok_inv in H.
  destruct H as (params & fpb & Hp & _ & Hc & Hs).
  exists params. split; [exact Hp|]. split; [exact Hc|].
  rewrite Hs at 1. reflexivity.
Qed.

(** C4.  When one of the names [load] reads from [args_params] is missing
    from the bundle (the bundle has no [args_params] list holding it),
    [load] throws, and the member the entry was for keeps the value it had
    before the call: no value is put in the entry's place. *)
Theorem load_missing_field_throws args s (f : string) :
  In f config_fields ->
  (forall params,
     args_params_of as_list args = Ok params -> has_name f params = false) ->
  exists s' e,
    load as_list misc args s = (s', Throw e) /\
    member f s' = member f s.
Proof.
  intros Hf Hmiss.
  pose proof (load_keeps_missing_member args f Hf Hmiss s) as Hkeep.
  cut (exists s' e, load as_list misc args s = (s', Throw e)).
  { intros (s' & e & E). exists s', e. split; [exact E|].
    now rewrite E in Hkeep. }
  apply load_not_Ok_throws. intros s' u H.
  apply load_Ok_inv in H. destruct H as (params & _ & Hp & _ & Hc & _).
  specialize (Hmiss params Hp).
  unfold converts in Hc. decompose [and] Hc. clear Hc.
  unfold config_fields in Hf. simpl in Hf.
  repeat (destruct Hf as [<- | Hf];
          [ match goal with
            | E : call _ params$?n = Ok _ |- _ =>
                apply call_present in E; congruence
            end | ]).
  contradiction.
Qed.

(** C9.  [load] needs the two collaborator lists although it stores
    nothing read from them: it throws when the bundle has no
    [args_functions] entry, when it has no [args_progress] entry, and
    when the [args_progress] list has no [pb_burnin] entry; and on two
    bundles that hold the same [args_params] entry and both hold the
    collaborator lists, [load] does the same, whatever those lists
    contain: called on one object the two calls have the same result, and
    called on two objects they leave the same configuration. *)
Theorem load_collaborator_lists args :
  (has_name "args_functions" args = false ->
   forall s, exists s' e, load as_list misc args s = (s', Throw e)) /\
  (has_name "args_progress" args = false ->
   forall s, exists s' e, load as_list misc args s = (s', Throw e)) /\
  (forall progress,
     List_from as_list args$"args_progress" = Ok progress ->
     has_name "pb_burnin" progress = false ->
     forall s, exists s' e, load as_list misc args s = (s', Throw e)) /\
  (forall args' fpb fpb',
     args$"args_params" = args'$"args_params" ->
     collaborators_of as_list args = Ok fpb ->
     collaborators_of as_list args' = Ok fpb' ->
     (forall s, load as_list misc args s = load as_list misc args' s) /\
     (forall s1 s2 s1' s2',
        load as_list misc args s1 = (s1', Ok tt) ->
        load as_list misc args' s2 = (s2', Ok tt) ->
        configuration s1' = configuration s2')).
Proof.
  split; [|split; [|split; [|intros args' fpb fpb' Heq Hc Hc'; split]]].
  - intros Habs s. apply load_not_Ok_throws. intros s' u H.
    apply load_Ok_inv in H. destruct H as (_ & fpb & _ & Hc & _).
    unfold collaborators_of in Hc.
    rewrite (get_by_name_absent _ _ Habs) in Hc. discriminate.
  - intros Habs s. apply load_not_Ok_throws. intros s' u H.
    apply load_Ok_inv in H. destruct H as (_ & fpb & _ & Hc & _).
    unfold collaborators_of in Hc.
    rewrite (get_by_name_absent _ _ Habs) in Hc.
    destruct (List_from as_list args$"args_functions"); discriminate.
  - intros progress Hpr Habs s. apply load_not_Ok_throws. intros s' u H.
    apply load_Ok_inv in H. destruct H as (_ & fpb & _ & Hc & _).
    unfold collaborators_of in Hc. rewrite Hpr in Hc.
    destruct (List_from as_list args$"args_functions"); simpl in Hc;
      [|discriminate].
    rewrite (get_by_name_absent _ _ Habs) in Hc. discriminate.
  - intros s.
    unfold collaborators_of in Hc, Hc'.
    apply rbind_Ok in Hc. destruct Hc as (f & Hf & Hc).
    apply rbind_Ok in Hc. destruct Hc as (p & Hp & Hc).
    apply rbind_Ok in Hc. destruct Hc as (b & Hb & _).
    apply rbind_Ok in Hc'. destruct Hc' as (f' & Hf' & Hc').
    apply rbind_Ok in Hc'. destruct Hc' as (p' & Hp' & Hc').
    apply rbind_Ok in Hc'. destruct Hc' as (b' & Hb' & _).
    unfold load, bind, eval.
    rewrite Heq, Hf, Hp, Hb, Hf', Hp', Hb'.
    reflexivity.
  - intros s1 s2 s1' s2' H1 H2.
    apply load_Ok_inv in H1. destruct H1 as (params & _ & Hp1 & _ & Hv1 & Hs1).
    apply load_Ok_inv in H2. destruct H2 as (params' & _ & Hp2 & _ & Hv2 & Hs2).
    unfold args_params_of in Hp1, Hp2. rewrite Heq, Hp2 in Hp1.
    injection Hp1 as <-.
    apply (f_equal (@d Other)) in Hs1, Hs2. simpl in Hs1, Hs2.
    unfold converts in Hv1, Hv2.
    decompose [and] Hv1. decompose [and] Hv2. clear Hv1 Hv2.
    unfold configuration. rewrite Hs1, Hs2.
    repeat match goal with
           | E1 : ?r = Ok ?a, E2 : ?r = Ok ?b |- _ =>
               rewrite E1 in E2; injection E2 as E2; rewrite E2 in *; clear E1
           end.
    reflexivity.
Qed.

(** C1, as the code has it.  [load] does not compare lengths: on a bundle
    that holds the three lists and whose configuration entries all
    convert, it returns normally and stores [theta_init], [theta_min],
    [theta_max], [trans_type] and [burnin] as converted, whatever their
    lengths and whatever [burnin_phases] is; [d] is the length of
    [theta_init]. *)
Theorem load_accepts_any_lengths args params fpb c s :
  args_params_of as_list args = Ok params ->
  collaborators_of as_list args = Ok fpb ->
  converts misc params c ->
  exists s',
    load as_list misc args s = (s', Ok tt) /\
    theta_init s' = theta_init c /\
    theta_min s' = theta_min c /\
    theta_max s' = theta_max c /\
    trans_type s' = trans_type c /\
    burnin s' = burnin c /\
    burnin_phases s' = burnin_phases c /\
    d s' = Z.of_nat (List.length (theta_init c)).
Proof.
  intros Hp Hc Hv. exists (loaded c s).
  split; [eapply load_Ok_intro; eassumption|].
  repeat split.
Qed.

(** C2, as the code has it.  [load] does not examine values: on a bundle
    that holds the three lists and whose configuration entries all
    convert, it returns normally and stores [rungs], [samples], [GTI_pow],
    [theta_init], [theta_min] and [theta_max] as converted, whatever the
    values are. *)
Theorem load_accepts_any_values args params fpb c s :
  args_params_of as_list args = Ok params ->
  collaborators_of as_list args = Ok fpb ->
  converts misc params c ->
  exists s',
    load as_list misc args s = (s', Ok tt) /\
    rungs s' = rungs c /\
    samples s' = samples c /\
    GTI_pow s' = GTI_pow c /\
    theta_init s' = theta_init c /\
    theta_min s' = theta_min c /\
    theta_max s' = theta_max c.
Proof.
  intros Hp Hc Hv. exists (loaded c s).
  split; [eapply load_Ok_intro; eassumption|].
  repeat split.
Qed.

End LoadTheory.

(* ================================================================= *)
(** ** The loader on the example bundles *)

Module LoadExamples.

Import RcppAs.

Lemma load_stores_converted_entries_witness :
  load as_list misc (bundle params_A) System0 = (System_A, Ok tt) /\
  exists params,
    args_params_of as_list (bundle params_A) = Ok params /\
    converts misc params System_A /\
    d System_A = Z.of_nat (List.length (theta_init System_A)).
Proof.
  split; [reflexivity|].
  apply (load_stores_converted_entries unit as_list misc
           (bundle params_A) System0 System_A).
  reflexivity.
Defined.

Lemma load_missing_field_throws_witness :
  In "silent" config_fields /\
  (forall params,
     args_params_of as_list (bundle (remove_entry "silent" params_A)) = Ok params ->
     has_name "silent" params = false) /\
  exists s' e,
    load as_list misc (bundle (remove_entry "silent" params_A)) System0
    = (s', Throw e) /\
    member "silent" s' = member "silent" System0.
Proof.
  assert (Hin : In "silent" config_fields) by (simpl; tauto).
  assert (Hmiss : forall params,
             args_params_of as_list (bundle (remove_entry "silent" params_A))
             = Ok params -> has_name "silent" params = false)
    by (intros params [= <-]; reflexivity).
  split; [exact Hin|]. split; [exact Hmiss|].
  exact (load_missing_field_throws unit as_list misc _ System0 "silent" Hin Hmiss).
Defined.

Lemma load_collaborator_lists_witness :
  (exists s' e,
     load as_list misc (remove_entry "args_functions" (bundle params_A)) System0
     = (s', Throw e)) /\
  (exists s' e,
     load as_list misc (remove_entry "args_progress" (bundle params_A)) System0
     = (s', Throw e)) /\
  (exists s' e,
     load as_list misc
       (set_entry "args_progress" (VECSXP [("pb_samples", NILSXP)])
          (bundle params_A)) System0
     = (s', Throw e)) /\
  load as_list misc (bundle params_A) System0
  = load as_list misc bundle_A' System0.
Proof.
  split; [|split; [|split]].
  - apply (proj1 (load_collaborator_lists unit as_list misc
                    (remove_entry "args_functions" (bundle params_A)))).
    reflexivity.
  - apply (proj1 (proj2 (load_collaborator_lists unit as_list misc
                    (remove_entry "args_progress" (bundle params_A))))).
    reflexivity.
  - apply (proj1 (proj2 (proj2 (load_collaborator_lists unit as_list misc
             (set_entry "args_progress" (VECSXP [("pb_samples", NILSXP)])
                (bundle params_A))))) [("pb_samples", NILSXP)]);
      reflexivity.
  - exact (proj1 (proj2 (proj2 (proj2 (load_collaborator_lists unit as_list
             misc (bundle params_A)))) bundle_A' _ _ eq_refl eq_refl eq_refl)
             System0).
Defined.

(** C1 fails on the code: the bundle holds two initial values, one lower
    bound, three upper bounds, no transformation and two burn-in lengths
    for one announced phase, and [load] returns the object holding them. *)
Lemma load_lengths_counterexample :
  params_lengths$"theta_init" = Ok (REALSXP [0%float; 1%float]) /\
  params_lengths$"theta_min" = Ok (REALSXP [(-10)%float]) /\
  params_lengths$"theta_max" = Ok (REALSXP [10%float; 10%float; 10%float]) /\
  params_lengths$"trans_type" = Ok (INTSXP []) /\
  params_lengths$"burnin" = Ok (INTSXP [1000%Z; 500%Z]) /\
  params_lengths$"burnin_phases" = Ok (INTSXP [1%Z]) /\
  load as_list misc (bundle params_lengths) System0 = (System_lengths, Ok tt) /\
  List.length (theta_init System_lengths) <> List.length (theta_min System_lengths) /\
  Z.of_nat (List.length (burnin System_lengths)) <> burnin_phases System_lengths.
Proof.
  do 7 (split; [reflexivity|]).
  split; simpl; discriminate.
Qed.

Lemma load_accepts_any_lengths_witness :
  args_params_of as_list (bundle params_lengths) = Ok params_lengths /\
  converts misc params_lengths System_lengths /\
  exists s',
    load as_list misc (bundle params_lengths) System0 = (s', Ok tt) /\
    theta_init s' = [0%float; 1%float] /\
    theta_min s' = [(-10)%float] /\
    theta_max s' = [10%float; 10%float; 10%float] /\
    trans_type s' = [] /\
    burnin s' = [1000%Z; 500%Z] /\
    burnin_phases s' = 1%Z /\
    d s' = 2%Z.
Proof.
  assert (Hp : args_params_of as_list (bundle params_lengths) = Ok params_lengths)
    by reflexivity.
  assert (Hv : converts misc params_lengths System_lengths)
    by (repeat split).
  split; [exact Hp|]. split; [exact Hv|].
  exact (load_accepts_any_lengths unit as_list misc (bundle params_lengths)
           params_lengths _ System_lengths System0 Hp eq_refl Hv).
Defined.

(** C2 fails on the code: the bundle asks for no rung, a negative number
    of samples and a negative power, starts above the upper bound, and
    [load] returns the object holding these values. *)
Lemma load_values_counterexample :
  load as_list misc (bundle params_values) System0 = (System_values, Ok tt) /\
  (rungs System_values < 1)%Z /\
  (samples System_values < 0)%Z /\
  PrimFloat.leb (GTI_pow System_values) 0%float = true /\
  within_bounds (theta_init System_values) (theta_min System_values)
    (theta_max System_values) = false.
Proof. repeat split. Qed.

Lemma load_accepts_any_values_witness :
  args_params_of as_list (bundle params_values) = Ok params_values /\
  converts misc params_values System_values /\
  exists s',
    load as_list misc (bundle params_values) System0 = (s', Ok tt) /\
    rungs s' = 0%Z /\
    samples s' = (-1)%Z /\
    GTI_pow s' = (-1)%float /\
    theta_init s' = [50%float] /\
    theta_min s' = [(-10)%float] /\
    theta_max s' = [10%float].
Proof.
  assert (Hp : args_params_of as_list (bundle params_values) = Ok params_values)
    by reflexivity.
  assert (Hv : converts misc params_values System_values)
    by (repeat split).
  split; [exact Hp|]. split; [exact Hv|].
  exact (load_accepts_any_values unit as_list misc (bundle params_values)
           params_values _ System_values System0 Hp eq_refl Hv).
Defined.

End LoadExamples.

(* ================================================================= *)
(** ** The tempering ladder *)

Module RungLadderTheory.

Import RungLadder.
Local Open Scope R_scope.

Lemma power_0 (p : R) : power 0 p = 0.
Proof.
  unfold power. destruct (Rlt_dec 0 0) as [H|_]; [|reflexivity].
  exfalso. exact (Rlt_irrefl 0 H).
Qed.

Lemma power_1 (p : R) : power 1 p = 1.
Proof.
  unfold power. destruct (Rlt_dec 0 1) as [_|H]; [|exfalso; apply H; lra].
  unfold Rpower. rewrite ln_1, Rmult_0_r. apply exp_0.
Qed.

Lemma power_pos (a p : R) : 0 < a -> 0 < power a p.
Proof.
  intros Ha. unfold power. destruct (Rlt_dec 0 a) as [_|H]; [|contradiction].
  unfold Rpower. apply exp_pos.
Qed.

(** Raising to a positive exponent is strictly increasing on the
    nonnegative reals. *)
Lemma power_lt (a b p : R) : 0 < p -> 0 <= a < b -> power a p < power b p.
Proof.
  intros Hp [[Ha | <-] Hab].
  - unfold power.
    destruct (Rlt_dec 0 a) as [_|H]; [|contradiction].
    destruct (Rlt_dec 0 b) as [_|H]; [|exfalso; apply H; lra].
    apply Rlt_Rpower_l; [exact Hp | split; assumption].
  - rewrite power_0. now apply power_pos.
Qed.

Lemma beta_tempered (rungs : nat) (p : R) (k : nat) :
  (1 < rungs)%nat -> beta rungs p k = power (INR k / INR (rungs - 1)) p.
Proof.
  intros H. unfold beta.
  destruct (Nat.eqb_spec rungs 1) as [E|_]; [lia | reflexivity].
Qed.

Lemma nth_construct (rungs : nat) (p : R) (k : nat) :
  (k < rungs)%nat -> nth k (construct rungs p) 0 = beta rungs p k.
Proof.
  intros H. unfold construct.
  rewrite (nth_indep _ 0 (beta rungs p 0%nat)) by (now rewrite length_map, length_seq).
  rewrite map_nth, seq_nth by exact H. reflexivity.
Qed.

Lemma top_rung_pos (rungs : nat) : (1 < rungs)%nat -> 0 < INR (rungs - 1).
Proof. intros H. apply lt_0_INR. lia. Qed.

(** C6.  A ladder of one rung consists of the single power [1]; for a
    positive [GTI_pow], a ladder of [rungs > 1] chains has [rungs] powers,
    rung [k] has power [(k / (rungs − 1))^GTI_pow], the first power is
    [0], the last is [1], and the powers increase strictly with the rung
    index. *)
Theorem ladder_powers (rungs : nat) (GTI_pow : R) :
  (rungs = 1%nat -> construct rungs GTI_pow = [1]) /\
  ((1 < rungs)%nat -> 0 < GTI_pow ->
   List.length (construct rungs GTI_pow) = rungs /\
   (forall k, (k < rungs)%nat ->
      nth k (construct rungs GTI_pow) 0
      = power (INR k / INR (rungs - 1)) GTI_pow) /\
   nth 0 (construct rungs GTI_pow) 0 = 0 /\
   nth (rungs - 1) (construct rungs GTI_pow) 0 = 1 /\
   (forall j k, (j < k < rungs)%nat ->
      nth j (construct rungs GTI_pow) 0 < nth k (construct rungs GTI_pow) 0)).
Proof.
  split.
  - intros ->. reflexivity.
  - intros Hr Hp. pose proof (top_rung_pos rungs Hr) as Htop.
    split; [|split; [|split; [|split]]].
    + unfold construct. now rewrite length_map, length_seq.
    + intros k Hk. rewrite nth_construct by exact Hk. now apply beta_tempered.
    + rewrite nth_construct, beta_tempered by lia.
      replace (INR 0 / INR (rungs - 1)) with 0 by (simpl; field; lra).
      apply power_0.
    + rewrite nth_construct, beta_tempered by lia.
      replace (INR (rungs - 1) / INR (rungs - 1)) with 1 by (field; lra).
      apply power_1.
    + intros j k [Hjk Hk].
      rewrite !nth_construct, !beta_tempered by lia.
      apply power_lt; [exact Hp|]. split.
      * apply Rmult_le_pos; [apply pos_INR | left; now apply Rinv_0_lt_compat].
      * apply Rmult_lt_compat_r; [now apply Rinv_0_lt_compat | now apply lt_INR].
Qed.

(** The ladder of five rungs with [GTI_pow = 2]. *)
Lemma ladder_powers_witness :
  0 < 2 /\ (1 < 5)%nat /\
  List.length (construct 5 2) = 5%nat /\
  nth 0 (construct 5 2) 0 = 0 /\
  nth 4 (construct 5 2) 0 = 1 /\
  (forall j k, (j < k < 5)%nat ->
     nth j (construct 5 2) 0 < nth k (construct 5 2) 0).
Proof.
  assert (Hp : 0 < 2) by lra.
  assert (Hr : (1 < 5)%nat) by lia.
  split; [exact Hp|]. split; [exact Hr|].
  destruct (proj2 (ladder_powers 5 2) Hr Hp) as (Hlen & _ & H0 & H1 & Hlt).
  split; [exact Hlen|]. split; [exact H0|]. split; [exact H1 | exact Hlt].
Defined.

End RungLadderTheory.

(* ================================================================= *)
(** ** The swap rule *)

Module CouplingEngineTheory.

Import CouplingEngine.
Local Open Scope R_scope.

Lemma swap_acceptance_range (ck ck1 : Chain) :
  0 < swap_acceptance ck ck1 <= 1.
Proof.
  unfold swap_acceptance. split.
  - apply Rmin_glb_lt; [lra | apply exp_pos].
  - apply Rmin_l.
Qed.

Lemma swap_acceptance_certain (ck ck1 : Chain) :
  (beta ck1 - beta ck) * (loglike ck - loglike ck1) = 0 ->
  swap_acceptance ck ck1 = 1.
Proof.
  intros H. unfold swap_acceptance. rewrite H, exp_0.
  apply Rmin_left. lra.
Qed.

Lemma attempt_swap_coupled (u : R) (ck ck1 : Chain) :
  coupling_on ck = true -> coupling_on ck1 = true ->
  attempt_swap u ck ck1
  = if Rlt_dec u (swap_acceptance ck ck1)
    then Some (swap_acceptance ck ck1, true, swap ck ck1)
    else Some (swap_acceptance ck ck1, false, (ck, ck1)).
Proof. intros H H1. unfold attempt_swap. now rewrite H, H1. Qed.

(** C7.  For an adjacent pair whose [coupling_on] flags are both true, a
    swap attempt with the uniform draw [u] is made with acceptance
    probability [min(1, exp((β_{k+1} − β_k)·(loglike_k − loglike_{k+1})))]
    and is accepted exactly when [u] lies below it; the probability is [1]
    when the two powers are equal and when the two log-likelihoods are
    equal, and the swap is then accepted for every draw [u < 1]. *)
Theorem swap_acceptance_rule (u : R) (ck ck1 : Chain) :
  coupling_on ck = true ->
  coupling_on ck1 = true ->
  let p := Rmin 1 (exp ((beta ck1 - beta ck) * (loglike ck - loglike ck1))) in
  (exists accepted chains,
     attempt_swap u ck ck1 = Some (p, accepted, chains) /\
     (accepted = true <-> u < p)) /\
  (beta ck = beta ck1 -> p = 1) /\
  (loglike ck = loglike ck1 -> p = 1) /\
  (beta ck = beta ck1 \/ loglike ck = loglike ck1 ->
   u < 1 -> attempt_swap u ck ck1 = Some (1, true, swap ck ck1)).
Proof.
  intros Hk Hk1 p.
  assert (Hsame : beta ck = beta ck1 \/ loglike ck = loglike ck1 ->
                  swap_acceptance ck ck1 = 1).
  { intros [H | H]; apply swap_acceptance_certain; rewrite H; ring. }
  split; [|split; [|split]].
  - rewrite attempt_swap_coupled by assumption.
    fold (swap_acceptance ck ck1) in p. subst p.
    destruct (Rlt_dec u (swap_acceptance ck ck1)) as [Hu | Hu].
    + exists true, (swap ck ck1). split; [reflexivity|]. tauto.
    + exists false, (ck, ck1). split; [reflexivity|].
      split; [discriminate | contradiction].
  - intros H. apply Hsame. now left.
  - intros H. apply Hsame. now right.
  - intros H Hu. rewrite attempt_swap_coupled by assumption.
    rewrite (Hsame H).
    destruct (Rlt_dec u 1) as [_ | Hn]; [reflexivity | contradiction].
Qed.

Lemma swap_acceptance_rule_witness :
  coupling_on rung_a = true /\ coupling_on rung_b = true /\
  attempt_swap (1 / 2) rung_a rung_b = Some (1, true, swap rung_a rung_b).
Proof.
  split; [reflexivity|]. split; [reflexivity|].
  apply (swap_acceptance_rule (1 / 2) rung_a rung_b eq_refl eq_refl).
  - left. reflexivity.
  - lra.
Defined.

End CouplingEngineTheory.

(* ================================================================= *)
(** ** Further properties of [load] *)

(** Lookup by name in a list with an entry more. *)
Lemma get_by_name_skip (n m : string) (v : SEXP) (l1 l2 : RList) :
  n <> m -> (l1 ++ (m, v) :: l2)$n = (l1 ++ l2)$n.
Proof.
  intros Hnm. induction l1 as [|[k w] tl IH]; simpl.
  - destruct (String.eqb_spec n m) as [E|_]; [contradiction | reflexivity].
  - destruct (String.eqb n k); [reflexivity | exact IH].
Qed.

Lemma get_by_name_shadowed (n m : string) (v : SEXP) (l1 l2 : RList) :
  has_name m l1 = true -> (l1 ++ (m, v) :: l2)$n = (l1 ++ l2)$n.
Proof.
  unfold has_name. induction l1 as [|[k w] tl IH]; simpl; [discriminate|].
  intros H. destruct (String.eqb n k) eqn:Enk; [reflexivity|].
  destruct (String.eqb m k) eqn:Emk; simpl in H.
  - apply String.eqb_eq in Emk. subst k.
    apply get_by_name_skip. intros ->. now rewrite String.eqb_refl in Enk.
  - now apply IH.
Qed.

(** With no name twice, lookup by name does not depend on the order of
    the entries. *)
Lemma get_by_name_perm (n : string) (l l' : RList) :
  Permutation l l' -> NoDup (map fst l) -> l$n = l'$n.
Proof.
  intros Hperm. induction Hperm as [| [k v] l l' Hperm IH
                                    | [k v] [k' v'] l
                                    | l l' l'' H1 IH1 H2 IH2 ]; intros Hnd.
  - reflexivity.
  - simpl. destruct (String.eqb n k); [reflexivity|].
    apply IH. now inversion Hnd.
  - simpl. destruct (String.eqb n k') eqn:E'; destruct (String.eqb n k) eqn:E;
      try reflexivity.
    apply String.eqb_eq in E, E'. subst k k'.
    exfalso. inversion Hnd as [|? ? Hnotin _]. apply Hnotin. now left.
  - rewrite IH1 by exact Hnd. apply IH2.
    eapply Permutation_NoDup; [|exact Hnd]. now apply Permutation_map.
Qed.

Section LoadMore.

Variable Other : Type.
Variable as_list : SEXP -> result RList.
Variable misc : Misc.

Implicit Types (s c : System Other) (args params : RList).

Lemma bind_eval_Ok {A B} (r : result A) (a : A) (k : A -> M Other B) s :
  r = Ok a -> bind (eval r) k s = k a s.
Proof. intros ->. reflexivity. Qed.

Lemma bind_eval_Throw {A B} (r : result A) (e : exception) (k : A -> M Other B) s :
  r = Throw e -> bind (eval r) k s = (s, Throw e).
Proof. intros ->. reflexivity. Qed.

Lemma collaborators_of_Ok args fpb :
  collaborators_of as_list args = Ok fpb ->
  exists f p b,
    List_from as_list args$"args_functions" = Ok f /\
    List_from as_list args$"args_progress" = Ok p /\
    List_from as_list p$"pb_burnin" = Ok b.
Proof.
  unfold collaborators_of. intros H.
  apply rbind_Ok in H. destruct H as (f & Hf & H).
  apply rbind_Ok in H. destruct H as (p & Hp & H).
  apply rbind_Ok in H. destruct H as (b & Hb & _).
  now exists f, p, b.
Qed.

(** [load] sees a bundle only through its three lists and through the
    entries of the sixteen names it reads. *)
Lemma load_ext args args' params params' fpb fpb' :
  args_params_of as_list args = Ok params ->
  args_params_of as_list args' = Ok params' ->
  collaborators_of as_list args = Ok fpb ->
  collaborators_of as_list args' = Ok fpb' ->
  (forall f, In f config_fields -> params$f = params'$f) ->
  forall s, load as_list misc args s = load as_list misc args' s.
Proof.
  unfold args_params_of. intros Hp Hp' Hc Hc' Hf s.
  apply collaborators_of_Ok in Hc. destruct Hc as (f & p & b & E1 & E2 & E3).
  apply collaborators_of_Ok in Hc'. destruct Hc' as (f' & p' & b' & E1' & E2' & E3').
  unfold load.
  rewrite (bind_eval_Ok _ _ _ _ Hp), (bind_eval_Ok _ _ _ _ E1),
    (bind_eval_Ok _ _ _ _ E2), (bind_eval_Ok _ _ _ _ E3).
  rewrite (bind_eval_Ok _ _ _ _ Hp'), (bind_eval_Ok _ _ _ _ E1'),
    (bind_eval_Ok _ _ _ _ E2'), (bind_eval_Ok _ _ _ _ E3').
  unfold config_fields in Hf.
  repeat match goal with
         | |- context [params$?n] =>
             rewrite (Hf n) by (simpl; tauto)
         end.
  reflexivity.
Qed.

(** X1.  [load] is idempotent: after a call that returned normally, a
    second call with the same bundle on the object it left returns
    normally and leaves the object as it is. *)
Theorem load_idempotent args s s' :
  load as_list misc args s = (s', Ok tt) ->
  load as_list misc args s' = (s', Ok tt).
Proof.
  intros H. apply load_Ok_inv in H.
  destruct H as (params & fpb & Hp & Hc & Hv & Hs).
  rewrite (load_Ok_intro Other as_list misc args params fpb s' s' Hp Hc Hv).
  f_equal. apply (f_equal (@d Other)) in Hs. simpl in Hs.
  destruct s'. unfold loaded. simpl in *. now rewrite <- Hs.
Qed.

(** X2.  Whether [load] returns or throws, and the exception it throws,
    do not depend on the object it is called on: [load] reads no member
    it has not assigned itself. *)
Theorem load_outcome_independent args s1 s2 :
  snd (load as_list misc args s1) = snd (load as_list misc args s2).
Proof.
  unfold load, bind, eval, store, this.
  destruct (List_from as_list args$"args_params") as [params|e];
    [|reflexivity].
  destruct (List_from as_list args$"args_functions"); [|reflexivity].
  destruct (List_from as_list args$"args_progress") as [p|e]; [|reflexivity].
  destruct (List_from as_list p$"pb_burnin"); [|reflexivity].
  repeat match goal with
         | |- context [call ?f params$?n] =>
             destruct (call f params$n); [cbn | reflexivity]
         end.
  reflexivity.
Qed.

(** X3.  When one of the four lists cannot be had from the bundle, [load]
    throws the exception of the first failing lookup and has assigned
    nothing: the object is exactly as before the call. *)
Theorem load_without_lists_assigns_nothing args s (e : exception) :
  args_params_of as_list args = Throw e \/
  (exists params,
     args_params_of as_list args = Ok params /\
     collaborators_of as_list args = Throw e) ->
  load as_list misc args s = (s, Throw e).
Proof.
  unfold args_params_of, collaborators_of, load.
  intros [H | (params & Hp & Hc)].
  - now apply bind_eval_Throw.
  - rewrite (bind_eval_Ok _ _ _ _ Hp).
    destruct (List_from as_list args$"args_functions") as [f|e1] eqn:E1;
      simpl in Hc; [|injection Hc as ->; now apply bind_eval_Throw].
    rewrite (bind_eval_Ok _ f _ _ eq_refl).
    destruct (List_from as_list args$"args_progress") as [p|e2] eqn:E2;
      simpl in Hc; [|injection Hc as ->; now apply bind_eval_Throw].
    rewrite (bind_eval_Ok _ p _ _ eq_refl).
    destruct (List_from as_list p$"pb_burnin") as [b|e3] eqn:E3;
      simpl in Hc; [discriminate|].
    injection Hc as ->. now apply bind_eval_Throw.
Qed.

(** X4.  [load] is not atomic.  Once the lists are there and the entry
    [x] converts, the member [x] holds the converted entry after the
    call, whether the call returns or throws at a later entry. *)
Theorem load_stores_x_before_failing args params fpb (vx : list float) s :
  args_params_of as_list args = Ok params ->
  collaborators_of as_list args = Ok fpb ->
  call (rcpp_to_vector_double misc) params$"x" = Ok vx ->
  x (fst (load as_list misc args s)) = vx.
Proof.
  unfold args_params_of. intros Hp Hc Hx.
  apply collaborators_of_Ok in Hc. destruct Hc as (f & p & b & E1 & E2 & E3).
  unfold load.
  rewrite (bind_eval_Ok _ _ _ _ Hp), (bind_eval_Ok _ _ _ _ E1),
    (bind_eval_Ok _ _ _ _ E2), (bind_eval_Ok _ _ _ _ E3).
  rewrite Hx. unfold bind at 1. simpl.
  match goal with
  | |- x (fst (?m ?st)) = _ =>
      assert (K : keeps (@x Other) m)
  end.
  { repeat first
      [ apply keeps_bind; [|intro]
      | apply keeps_eval
      | apply keeps_this
      | apply keeps_store; reflexivity ]. }
  now rewrite K.
Qed.

(** X5.  [load] raises no exception of its own.  An exception that leaves
    it is the one a lookup of a list threw, or the one the lookup or the
    conversion of one of the sixteen entries threw. *)
Theorem load_error_provenance args s s' (e : exception) :
  load as_list misc args s = (s', Throw e) ->
  args_params_of as_list args = Throw e \/
  collaborators_of as_list args = Throw e \/
  exists params f,
    args_params_of as_list args = Ok params /\
    In (f, Throw e) (entries misc params).
Proof.
  unfold args_params_of, collaborators_of, load, bind, eval, store, this.
  intros H.
  destruct (List_from as_list args$"args_params") as [params|e0];
    [|left; now injection H as _ ->].
  right.
  destruct (List_from as_list args$"args_functions") as [f|e0];
    [|left; now injection H as _ ->].
  destruct (List_from as_list args$"args_progress") as [p|e0];
    [|left; now injection H as _ ->].
  simpl.
  destruct (List_from as_list p$"pb_burnin") as [b|e0];
    [|left; now injection H as _ ->].
  right. exists params. unfold entries.
  repeat match type of H with
         | context [call ?f params$?n] =>
             destruct (call f params$n);
             [ cbn in H
             | injection H as _ ->; eexists; split; [reflexivity|];
               simpl; repeat (first [left; reflexivity | right]) ]
         end.
  discriminate.
Qed.

(** X6.  Entries of [args_params] under a name [load] does not read are
    ignored: with or without such an entry, wherever it stands, [load]
    does the same. *)
Theorem load_ignores_unread_entry args args' (p1 p2 : RList) (m : string)
    (v : SEXP) fpb fpb' :
  ~ In m config_fields ->
  args$"args_params" = Ok (VECSXP (p1 ++ (m, v) :: p2)) ->
  args'$"args_params" = Ok (VECSXP (p1 ++ p2)) ->
  collaborators_of as_list args = Ok fpb ->
  collaborators_of as_list args' = Ok fpb' ->
  forall s, load as_list misc args s = load as_list misc args' s.
Proof.
  intros Hm Hp Hp' Hc Hc'.
  apply (load_ext args args' (p1 ++ (m, v) :: p2) (p1 ++ p2) fpb fpb');
    try assumption.
  - unfold args_params_of. now rewrite Hp.
  - unfold args_params_of. now rewrite Hp'.
  - intros f Hf. apply get_by_name_skip. intros ->. contradiction.
Qed.

(** X7.  Of two entries of [args_params] with the same name, only the
    first counts: an entry whose name already stands earlier in the list
    is ignored, whatever its value. *)
Theorem load_ignores_later_duplicate args args' (p1 p2 : RList) (m : string)
    (v : SEXP) fpb fpb' :
  has_name m p1 = true ->
  args$"args_params" = Ok (VECSXP (p1 ++ (m, v) :: p2)) ->
  args'$"args_params" = Ok (VECSXP (p1 ++ p2)) ->
  collaborators_of as_list args = Ok fpb ->
  collaborators_of as_list args' = Ok fpb' ->
  forall s, load as_list misc args s = load as_list misc args' s.
Proof.
  intros Hm Hp Hp' Hc Hc'.
  apply (load_ext args args' (p1 ++ (m, v) :: p2) (p1 ++ p2) fpb fpb');
    try assumption.
  - unfold args_params_of. now rewrite Hp.
  - unfold args_params_of. now rewrite Hp'.
  - intros f _. now apply get_by_name_shadowed.
Qed.

(** X8.  Entries are found by name, not by position: when no name occurs
    twice in [args_params], [load] does the same on every reordering of
    its entries. *)
Theorem load_ignores_entry_order args args' (p p' : RList) fpb fpb' :
  NoDup (map fst p) ->
  Permutation p p' ->
  args$"args_params" = Ok (VECSXP p) ->
  args'$"args_params" = Ok (VECSXP p') ->
  collaborators_of as_list args = Ok fpb ->
  collaborators_of as_list args' = Ok fpb' ->
  forall s, load as_list misc args s = load as_list misc args' s.
Proof.
  intros Hnd Hperm Hp Hp' Hc Hc'.
  apply (load_ext args args' p p' fpb fpb'); try assumption.
  - unfold args_params_of. now rewrite Hp.
  - unfold args_params_of. now rewrite Hp'.
  - intros f _. now apply get_by_name_perm.
Qed.

(** X9.  [load] returns normally exactly when the bundle holds the
    parameter list and the three collaborator lists and every one of the
    sixteen entries is present and converts; nothing else can make it
    throw. *)
Theorem load_returns_iff args s :
  (exists s', load as_list misc args s = (s', Ok tt)) <->
  (exists params fpb c,
     args_params_of as_list args = Ok params /\
     collaborators_of as_list args = Ok fpb /\
     converts misc params c).
Proof.
  split.
  - intros (s' & H). apply load_Ok_inv in H.
    destruct H as (params & fpb & Hp & Hc & Hv & _).
    now exists params, fpb, s'.
  - intros (params & fpb & c & Hp & Hc & Hv).
    exists (loaded c s). eapply load_Ok_intro; eassumption.
Qed.

(** X10.  Entries of the bundle itself under a name other than
    [args_params], [args_functions] and [args_progress] are ignored,
    whether [load] returns or throws. *)
Theorem load_ignores_unread_list (a1 a2 : RList) (m : string) (v : SEXP) s :
  ~ In m ["args_params"; "args_functions"; "args_progress"] ->
  load as_list misc (a1 ++ (m, v) :: a2) s = load as_list misc (a1 ++ a2) s.
Proof.
  intros Hm. unfold load.
  rewrite (get_by_name_skip "args_params" m v a1 a2),
    (get_by_name_skip "args_functions" m v a1 a2),
    (get_by_name_skip "args_progress" m v a1 a2)
    by (intros <-; apply Hm; simpl; tauto).
  reflexivity.
Qed.

Section Invariant.

Variable Q : System Other -> Prop.

Lemma invariant_eval {A} (r : result A) : invariant Q (eval r).
Proof. intros s H. exact H. Qed.

Lemma invariant_this : invariant Q (@this Other).
Proof. intros s H. exact H. Qed.

Lemma invariant_store {A} (set : A -> System Other -> System Other) (r : result A) :
  (forall v, r = Ok v -> forall s, Q s -> Q (set v s)) ->
  invariant Q (store set r).
Proof.
  intros Hset s H. unfold store. destruct r as [v|e]; simpl; [|exact H].
  now apply Hset.
Qed.

Lemma invariant_bind {A B} (m : M Other A) (k : A -> M Other B) :
  invariant Q m -> (forall a, invariant Q (k a)) -> invariant Q (bind m k).
Proof.
  intros Hm Hk s H. unfold bind. specialize (Hm s H).
  destruct (m s) as [s1 [a|e]]; simpl in *; [now apply Hk | exact Hm].
Qed.

End Invariant.

(** X11.  Whatever the outcome of [load], each member it fills from the
    bundle holds afterwards either the value it had before the call or
    the converted entry of its name; no other value is ever stored. *)
Theorem load_member_old_or_converted args s (f : string) :
  In f config_fields ->
  member f (fst (load as_list misc args s)) = member f s \/
  exists params v,
    args_params_of as_list args = Ok params /\
    In (f, Ok v) (entries misc params) /\
    member f (fst (load as_list misc args s)) = Some v.
Proof.
  intros Hf. unfold args_params_of, load.
  destruct (List_from as_list args$"args_params") as [params|e];
    [|left; reflexivity].
  rewrite (bind_eval_Ok _ params _ _ eq_refl).
  match goal with
  | |- member f (fst (?m s)) = _ \/ _ =>
      cut (invariant
             (fun s' => member f s' = member f s \/
                        exists v, In (f, Ok v) (entries misc params) /\
                                  member f s' = Some v) m)
  end.
  { intros Hinv.
    destruct (Hinv s (or_introl eq_refl)) as [H | (v & Hin & H)].
    - now left.
    - right. now exists params, v. }
  unfold config_fields in Hf. simpl in Hf.
  repeat (destruct Hf as [<- | Hf];
    [ repeat first
        [ apply invariant_bind; [|intro]
        | apply invariant_eval
        | apply invariant_this
        | apply invariant_store; intros v Hv s0 HQ;
          first
            [ exact HQ
            | right; eexists; split;
              [ unfold entries; rewrite Hv; simpl;
                repeat (first [left; reflexivity | right])
              | reflexivity ] ] ]
    | ]).
  contradiction.
Qed.

End LoadMore.

(* ================================================================= *)
(** ** The further properties on the example bundles *)

Module LoadMoreExamples.

Import RcppAs.

Lemma load_idempotent_witness :
  load as_list misc (bundle params_A) System0 = (System_A, Ok tt) /\
  load as_list misc (bundle params_A) System_A = (System_A, Ok tt).
Proof.
  assert (H : load as_list misc (bundle params_A) System0 = (System_A, Ok tt))
    by reflexivity.
  split; [exact H|].
  exact (load_idempotent unit as_list misc (bundle params_A) System0 System_A H).
Defined.

Lemma load_without_lists_assigns_nothing_witness :
  args_params_of as_list (remove_entry "args_params" (bundle params_A))
  = Throw (index_out_of_bounds "args_params") /\
  load as_list misc (remove_entry "args_params" (bundle params_A)) System_A
  = (System_A, Throw (index_out_of_bounds "args_params")).
Proof.
  split; [reflexivity|].
  apply (load_without_lists_assigns_nothing unit as_list misc).
  left. reflexivity.
Defined.

Lemma load_stores_x_before_failing_witness :
  args_params_of as_list (bundle (remove_entry "silent" params_A))
  = Ok (remove_entry "silent" params_A) /\
  snd (load as_list misc (bundle (remove_entry "silent" params_A)) System0)
  = Throw (index_out_of_bounds "silent") /\
  x (fst (load as_list misc (bundle (remove_entry "silent" params_A)) System0))
  = [0.5%float; (-0.25)%float; 1.5%float].
Proof.
  split; [reflexivity|]. split; [reflexivity|].
  eapply (load_stores_x_before_failing unit as_list misc
           (bundle (remove_entry "silent" params_A))
           (remove_entry "silent" params_A) _
           [0.5%float; (-0.25)%float; 1.5%float] System0);
    reflexivity.
Defined.

Lemma load_error_provenance_witness :
  snd (load as_list misc (bundle (remove_entry "rungs" params_A)) System0)
  = Throw (index_out_of_bounds "rungs") /\
  (args_params_of as_list (bundle (remove_entry "rungs" params_A))
   = Throw (index_out_of_bounds "rungs") \/
   collaborators_of as_list (bundle (remove_entry "rungs" params_A))
   = Throw (index_out_of_bounds "rungs") \/
   exists params f,
     args_params_of as_list (bundle (remove_entry "rungs" params_A)) = Ok params /\
     In (f, Throw (index_out_of_bounds "rungs")) (entries misc params)).
Proof.
  split; [reflexivity|].
  apply (load_error_provenance unit as_list misc
           (bundle (remove_entry "rungs" params_A)) System0
           (fst (load as_list misc (bundle (remove_entry "rungs" params_A)) System0))).
  reflexivity.
Defined.

Lemma load_ignores_unread_entry_witness :
  ~ In "seed" config_fields /\
  load as_list misc
    (bundle (firstn 3 params_A ++ ("seed", INTSXP [42%Z]) :: skipn 3 params_A))
    System0
  = load as_list misc (bundle (firstn 3 params_A ++ skipn 3 params_A)) System0.
Proof.
  assert (H : ~ In "seed" config_fields) by (simpl; intuition discriminate).
  split; [exact H|].
  eapply (load_ignores_unread_entry unit as_list misc _ _
            (firstn 3 params_A) (skipn 3 params_A) "seed" (INTSXP [42%Z]) _ _ H);
    reflexivity.
Defined.

Lemma load_ignores_later_duplicate_witness :
  has_name "rungs" params_A = true /\
  load as_list misc (bundle (params_A ++ [("rungs", INTSXP [7%Z])])) System0
  = load as_list misc (bundle (params_A ++ [])) System0.
Proof.
  split; [reflexivity|].
  eapply (load_ignores_later_duplicate unit as_list misc _ _
            params_A [] "rungs" (INTSXP [7%Z]));
    reflexivity.
Defined.

Lemma load_ignores_entry_order_witness :
  NoDup (map fst params_A) /\
  Permutation params_A (rev params_A) /\
  load as_list misc (bundle params_A) System0
  = load as_list misc (bundle (rev params_A)) System0.
Proof.
  assert (Hnd : NoDup (map fst params_A))
    by (simpl; repeat (constructor; [simpl; intuition discriminate|]);
        constructor).
  assert (Hperm : Permutation params_A (rev params_A))
    by apply Permutation_rev.
  split; [exact Hnd|]. split; [exact Hperm|].
  eapply (load_ignores_entry_order unit as_list misc _ _
            params_A (rev params_A) _ _ Hnd Hperm);
    reflexivity.
Defined.

Lemma load_ignores_unread_list_witness :
  ~ In "seed" ["args_params"; "args_functions"; "args_progress"] /\
  load as_list misc ([] ++ ("seed", INTSXP [42%Z]) :: bundle params_A) System0
  = load as_list misc ([] ++ bundle params_A) System0.
Proof.
  assert (H : ~ In "seed" ["args_params"; "args_functions"; "args_progress"])
    by (simpl; intuition discriminate).
  split; [exact H|].
  exact (load_ignores_unread_list unit as_list misc
           [] (bundle params_A) "seed" (INTSXP [42%Z]) System0 H).
Defined.

Lemma load_member_old_or_converted_witness :
  In "rungs" config_fields /\
  (member "rungs"
     (fst (load as_list misc (bundle (remove_entry "silent" params_A)) System0))
   = member "rungs" System0 \/
   exists params v,
     args_params_of as_list (bundle (remove_entry "silent" params_A)) = Ok params /\
     In ("rungs", Ok v) (entries misc params) /\
     member "rungs"
       (fst (load as_list misc (bundle (remove_entry "silent" params_A)) System0))
     = Some v).
Proof.
  assert (H : In "rungs" config_fields) by (simpl; tauto).
  split; [exact H|].
  exact (load_member_old_or_converted unit as_list misc
           (bundle (remove_entry "silent" params_A)) System0 "rungs" H).
Defined.

End LoadMoreExamples.

(* ================================================================= *)
(** ** Frame: the loader in the program state *)

Section InProgramTheory.

Variable Other : Type.
Variable World : Type.

Implicit Types (p : Program Other World).

Section Unchanged.

Variable X : Type.
Variable F : Program Other World -> X.








End Unchanged.

(** With helpers that compute their result from their argument alone,
    a statement in the program state does what the statement of [load]
    does to the object, and nothing besides. *)
Section Pure.

Variable as_list : SEXP -> result RList.
Variable misc : Misc.
Variable args : RList.

Let agrees {A} (mp : P Other World A) (m : M Other A) : Prop :=
  forall s w,
    mp (mkProgram s args w) = (mkProgram (fst (m s)) args w, snd (m s)).

Lemma agrees_pbind {A B} (mp : P Other World A) (m : M Other A)
    (kp : A -> P Other World B) (k : A -> M Other B) :
  agrees mp m -> (forall a, agrees (kp a) (k a)) ->
  agrees (pbind mp kp) (bind m k).
Proof.
  intros Hm Hk s w. unfold pbind, bind. rewrite Hm.
  destruct (m s) as [s1 [a|e]]; simpl; [apply Hk | reflexivity].
Qed.

Lemma agrees_List_init_args (name : string) :
  agrees (List_init (pure_externals as_list misc) (read_args name))
         (eval (List_from as_list args$name)).
Proof.
  intros s w. unfold List_init, pbind, read_args, eval, List_from. simpl.
  destruct (args$name) as [[]|]; reflexivity.
Qed.

Lemma agrees_List_init_local (r : result SEXP) :
  agrees (List_init (pure_externals as_list misc) (local r))
         (eval (List_from as_list r)).
Proof.
  intros s w. unfold List_init, pbind, local, eval, List_from. simpl.
  destruct r as [[]|]; reflexivity.
Qed.

Lemma agrees_assign_convert {A} (set : A -> System Other -> System Other)
    (f : SEXP -> result A) (l : RList) (name : string) :
  agrees (assign set (convert (pure_call f) l name))
         (store set (call f l$name)).
Proof.
  intros s w. unfold assign, convert, pbind, local, pure_call, store, call.
  destruct (l$name) as [v|]; simpl; [|reflexivity].
  destruct (f v); reflexivity.
Qed.

Lemma agrees_assign_pret {A} (set : A -> System Other -> System Other) (v : A) :
  agrees (assign set (pret v)) (store set (Ok v)).
Proof. intros s w. reflexivity. Qed.

Lemma agrees_read_self : agrees (@read_self Other World) (@this Other).
Proof. intros s w. reflexivity. Qed.

Lemma System_load_agrees :
  agrees (System_load (pure_externals as_list misc)) (load as_list misc args).
Proof.
  unfold System_load, load.
  repeat first
    [ apply agrees_pbind; [|intro]
    | apply agrees_List_init_args
    | apply agrees_List_init_local
    | apply agrees_read_self
    | apply agrees_assign_pret
    | apply (agrees_assign_convert _ (rcpp_to_bool misc))
    | apply (agrees_assign_convert _ (rcpp_to_int misc))
    | apply (agrees_assign_convert _ (rcpp_to_double misc))
    | apply (agrees_assign_convert _ (rcpp_to_vector_bool misc))
    | apply (agrees_assign_convert _ (rcpp_to_vector_int misc))
    | apply (agrees_assign_convert _ (rcpp_to_vector_double misc)) ].
Qed.

End Pure.

(** The loader in the program state, with such helpers, is [load] on the
    list behind [args] and on the object. *)
Lemma System_load_pure (as_list : SEXP -> result RList) (misc : Misc) p :
  System_load (pure_externals as_list misc) p
  = (mkProgram (fst (load as_list misc (R_args p) (self p)))
       (R_args p) (world p),
     snd (load as_list misc (R_args p) (self p))).
Proof. destruct p as [s args w]. apply System_load_agrees. Qed.


End InProgramTheory.

Module InProgramExamples.

Import RcppAs.


(** The condition on the helpers is needed: with an [rcpp_to_int] that
    counts its calls in the rest of the state, [load] leaves the counter
    four higher, one for each of [samples], [rungs], [burnin_phases] and
    [chain]. *)
Lemma System_load_counts_calls :
  world (fst (System_load
                (mkExternals (pure_call as_list) (pure_call as_bool)
                   (fun v q =>
                      (mkProgram (self q) (R_args q) (S (world q)), as_int v))
                   (pure_call as_double) (pure_call as_vector_bool)
                   (pure_call as_vector_int) (pure_call as_vector_double))
                (mkProgram System0 (bundle params_A) 7%nat)))
  = 11%nat.
Proof. reflexivity. Qed.

End InProgramExamples.
